(** * go-list-func: listing the exported functions of a Go package

    A shallow embedding of [main.go]: the visibility classifier
    ([exported]), the signature renderer ([formatType], [formatFields],
    [formatFuncParams], [formatFuncResults], [formatFuncDecl]) and the
    printing loop ([printFuncsInFile], [printFuncsInProgram]).

    Conventions of the embedding:
    - a Go [string] is a sequence of bytes: Rocq's [string];
    - a [rune] and an [int] are integers in [Z];
    - a [panic] is the [Panic] outcome of the [result] type; nothing in
      the program recovers, so a [Panic] reaching [main] ends the run;
    - [fmt.Println] appends one line to the standard output, which is
      threaded through the printing functions as a list of lines;
    - a pointer that [go/ast] documents as possibly [nil]
      ([FuncDecl.Recv], [FuncType.Results]) is an [option]; the [nil]
      interface value of [ast.Expr] is the constructor [NilExpr]. *)

From Stdlib Require Import String Ascii List ZArith Bool Lia.
Import ListNotations.

Local Open Scope string_scope.
Local Open Scope Z_scope.
Local Set Warnings "-register-all".

Infix "+++" := String.append (right associativity, at level 60).

(** ** Panics and results *)

(** The values the program panics with.  The two "strange receiver"
    messages carry the name of the declaration; the run-time error of an
    index out of range comes from [[]rune(s)[i]] and [List[0]]. *)
Inductive PanicValue : Type :=
| StrangeReceiver (name : string)
| StrangeReceiverField (name : string)
| UnsupportedChanType
| UnsupportedType
| IndexOutOfRange.

Inductive result (A : Type) : Type :=
| Ok (a : A)
| Panic (p : PanicValue).
Arguments Ok {A} a.
Arguments Panic {A} p.

Definition bind {A B : Type} (r : result A) (k : A -> result B) : result B :=
  match r with
  | Ok a => k a
  | Panic p => Panic p
  end.

Notation "x <- e ;; k" := (bind e (fun x => k))
  (at level 61, e at next level, right associativity).

(** [l[i]] on a slice: a run-time panic when [i] is out of range. *)
Definition index {A : Type} (l : list A) (i : nat) : result A :=
  match nth_error l i with
  | Some a => Ok a
  | None => Panic IndexOutOfRange
  end.

(** [len(l)] as a Go [int]. *)
Definition len {A : Type} (l : list A) : Z := Z.of_nat (length l).

(** ** Strings and runes *)

Definition rune : Type := Z.

Definition byte (c : ascii) : Z := Z.of_N (N_of_ascii c).

(** [strings.HasPrefix(s, prefix)]. *)
Definition HasPrefix (s prefix : string) : bool := String.prefix prefix s.

(** Constants of the UTF-8 decoder of the Go runtime. *)
Definition runeError : rune := 65533.    (* U+FFFD *)
Definition runeSelf : Z := 128.
Definition maxRune : rune := 1114111.    (* U+10FFFF *)
Definition surrogateMin : rune := 55296. (* 0xD800 *)
Definition surrogateMax : rune := 57343. (* 0xDFFF *)
Definition t2 : Z := 192.                (* 1100 0000 *)
Definition t3 : Z := 224.                (* 1110 0000 *)
Definition t4 : Z := 240.                (* 1111 0000 *)
Definition t5 : Z := 248.                (* 1111 1000 *)
Definition maskx : Z := 63.
Definition mask2 : Z := 31.
Definition mask3 : Z := 15.
Definition mask4 : Z := 7.
Definition rune1Max : rune := 127.
Definition rune2Max : rune := 2047.
Definition rune3Max : rune := 65535.
Definition locb : Z := 128.
Definition hicb : Z := 191.

Definition isCont (b : Z) : bool := (locb <=? b) && (b <=? hicb).

(** The runtime's [decoderune] on the rest of a string that starts with a
    byte [>= runeSelf]: the rune decoded and the number of bytes it
    takes; an invalid or short encoding is [runeError] of width 1. *)
Definition decoderune (s : string) : rune * nat :=
  match s with
  | String c0 (String c1 rest1) =>
      let b0 := byte c0 in
      let b1 := byte c1 in
      if (t2 <=? b0) && (b0 <? t3) then
        let r := Z.lor (Z.shiftl (Z.land b0 mask2) 6) (Z.land b1 maskx) in
        if isCont b1 && (rune1Max <? r) then (r, 2%nat) else (runeError, 1%nat)
      else if (t3 <=? b0) && (b0 <? t4) then
        match rest1 with
        | String c2 _ =>
            let b2 := byte c2 in
            let r := Z.lor (Z.lor (Z.shiftl (Z.land b0 mask3) 12)
                                  (Z.shiftl (Z.land b1 maskx) 6))
                           (Z.land b2 maskx) in
            if isCont b1 && isCont b2 && (rune2Max <? r)
               && negb ((surrogateMin <=? r) && (r <=? surrogateMax))
            then (r, 3%nat) else (runeError, 1%nat)
        | EmptyString => (runeError, 1%nat)
        end
      else if (t4 <=? b0) && (b0 <? t5) then
        match rest1 with
        | String c2 (String c3 _) =>
            let b2 := byte c2 in
            let b3 := byte c3 in
            let r := Z.lor (Z.lor (Z.lor (Z.shiftl (Z.land b0 mask4) 18)
                                         (Z.shiftl (Z.land b1 maskx) 12))
                                  (Z.shiftl (Z.land b2 maskx) 6))
                           (Z.land b3 maskx) in
            if isCont b1 && isCont b2 && isCont b3 && (rune3Max <? r)
               && (r <=? maxRune)
            then (r, 4%nat) else (runeError, 1%nat)
        | _ => (runeError, 1%nat)
        end
      else (runeError, 1%nat)
  | _ => (runeError, 1%nat)
  end.

(** One step of [for _, r := range s]: a byte below [runeSelf] is its own
    rune, anything else goes through [decoderune]. *)
Definition nextRune (s : string) : rune * nat :=
  match s with
  | String c0 _ => if byte c0 <? runeSelf then (byte c0, 1%nat) else decoderune s
  | EmptyString => (runeError, 1%nat)
  end.

(** [s[n:]], empty when [n] exceeds the length. *)
Fixpoint skip (n : nat) (s : string) : string :=
  match n, s with
  | O, _ => s
  | S n', String _ s' => skip n' s'
  | S _, EmptyString => EmptyString
  end.

(** The conversion [[]rune(s)]: the runes of [s] in order.  The last
    branch of the inner match is never taken, see [stringtoslicerune_step]. *)
Fixpoint stringtoslicerune (s : string) : list rune :=
  match s with
  | EmptyString => []
  | String _ s1 =>
      let '(r, w) := nextRune s in
      r :: match w, s1 with
           | 1%nat, _ => stringtoslicerune s1
           | 2%nat, String _ s2 => stringtoslicerune s2
           | 3%nat, String _ (String _ s3) => stringtoslicerune s3
           | 4%nat, String _ (String _ (String _ s4)) => stringtoslicerune s4
           | _, _ => []
           end
  end.

(** ** The syntax tree ([go/ast]) *)

(** [ast.Ident]. *)
Record Ident : Type := mkIdent { Name : string }.

(** [ast.Field]: names sharing one type ([Type_] is the Go field [Type]). *)
Record Field_ (E : Type) : Type := mkField { Names : list Ident; Type_ : E }.
Arguments mkField {E} Names Type_.
Arguments Names {E} f.
Arguments Type_ {E} f.

(** [ast.FieldList] ([List_] is the Go field [List]). *)
Record FieldList_ (E : Type) : Type := mkFieldList { List_ : list (Field_ E) }.
Arguments mkFieldList {E} List_.
Arguments List_ {E} f.

(** [ast.FuncType]: [Params] is never [nil], [Results] may be. *)
Record FuncType_ (E : Type) : Type := mkFuncType {
  Params : FieldList_ E;
  Results : option (FieldList_ E)
}.
Arguments mkFuncType {E} Params Results.
Arguments Params {E} f.
Arguments Results {E} f.

Inductive ChanDir : Type := SEND | RECV | SENDRECV.

(** [ast.Expr], an interface: the node kinds [formatType] switches on, and
    the remaining ones, which all reach its [default] branch
    ([ParenExpr], [StructType], [InterfaceType], and [OtherExpr] for the
    rest; the contents of the last three are left out, nothing reads
    them). *)
Inductive Expr : Type :=
| NilExpr
| IdentExpr (t : Ident)
| SelectorExpr (X : Expr) (Sel : Ident)
| StarExpr (X : Expr)
| ArrayType (Len : Expr) (Elt : Expr)
| Ellipsis (Elt : Expr)
| FuncTypeExpr (t : FuncType_ Expr)
| MapType (Key : Expr) (Value : Expr)
| ChanType (Dir : ChanDir) (Value : Expr)
| BasicLit (Value : string)
| ParenExpr (X : Expr)
| StructType
| InterfaceType
| OtherExpr.

Definition Field : Type := Field_ Expr.
Definition FieldList : Type := FieldList_ Expr.
Definition FuncType : Type := FuncType_ Expr.

(** [ast.FuncDecl] ([DeclName] and [DeclType] are the Go fields [Name] and
    [Type]). *)
Record FuncDecl : Type := mkFuncDecl {
  Recv : option FieldList;
  DeclName : Ident;
  DeclType : FuncType
}.

(** [ast.Decl], an interface: only [*ast.FuncDecl] is looked at. *)
Inductive Decl : Type :=
| FuncDeclD (decl : FuncDecl)
| GenDecl
| BadDecl.

(** [ast.File], and what the loader hands over. *)
Record File : Type := mkFile { Decls : list Decl }.
Record PackageInfo : Type := mkPackageInfo { Files : list File }.
Record Program : Type := mkProgram { InitialPackages : list PackageInfo }.

(** ** The signature renderer *)

Section FieldRendering.

(** [formatFields] and [formatType] call each other; the former is
    written over the latter, which is tied in below. *)
Variable formatType : Expr -> result string.

(** The inner loop of [formatFields], [for j, name := range field.Names],
    from index [j], with [n = len(field.Names)]. *)
Fixpoint formatNames (names : list Ident) (j n : Z) (s : string) : string :=
  match names with
  | [] => s
  | name :: rest =>
      let s := s +++ Name name in
      let s := if negb (j =? n - 1) then s +++ "," else s in
      let s := s +++ " " in
      formatNames rest (j + 1) n s
  end.

(** The outer loop, [for i, field := range fields.List], from index
    [i], with [n = len(fields.List)]. *)
Fixpoint formatFieldsFrom (fields : list Field) (i n : Z) (s : string)
  : result string :=
  match fields with
  | [] => Ok s
  | field :: rest =>
      let s := formatNames (Names field) 0 (len (Names field)) s in
      t <- formatType (Type_ field) ;;
      let s := s +++ t in
      let s := if negb (i =? n - 1) then s +++ ", " else s in
      formatFieldsFrom rest (i + 1) n s
  end.

Definition formatFieldsWith (fields : FieldList) : result string :=
  formatFieldsFrom (List_ fields) 0 (len (List_ fields)) "".

Definition formatFuncParamsWith (fields : FieldList) : result string :=
  formatFieldsWith fields.

Definition formatFuncResultsWith (fields : option FieldList) : result string :=
  let s := "" in
  match fields with
  | Some fields =>
      let s := s +++ " " in
      let s := if 1 <? len (List_ fields) then s +++ "(" else s in
      f <- formatFieldsWith fields ;;
      let s := s +++ f in
      let s := if 1 <? len (List_ fields) then s +++ ")" else s in
      Ok s
  | None => Ok s
  end.

End FieldRendering.

Fixpoint formatType (typ : Expr) : result string :=
  match typ with
  | NilExpr => Ok ""
  | IdentExpr t => Ok (Name t)
  | SelectorExpr X Sel =>
      x <- formatType X ;; Ok (x +++ "." +++ Name Sel)
  | StarExpr X =>
      x <- formatType X ;; Ok ("*" +++ x)
  | ArrayType Len Elt =>
      l <- formatType Len ;; e <- formatType Elt ;; Ok ("[" +++ l +++ "]" +++ e)
  | Ellipsis Elt => formatType Elt
  | FuncTypeExpr t =>
      p <- formatFuncParamsWith formatType (Params t) ;;
      r <- formatFuncResultsWith formatType (Results t) ;;
      Ok ("func(" +++ p +++ ")" +++ r)
  | MapType Key Value =>
      k <- formatType Key ;; v <- formatType Value ;;
      Ok ("map[" +++ k +++ "]" +++ v)
  | ChanType _ _ => Panic UnsupportedChanType
  | BasicLit Value => Ok Value
  | _ => Panic UnsupportedType
  end.

Definition formatFields : FieldList -> result string :=
  formatFieldsWith formatType.

Definition formatFuncParams : FieldList -> result string :=
  formatFuncParamsWith formatType.

Definition formatFuncResults : option FieldList -> result string :=
  formatFuncResultsWith formatType.

Definition formatFuncDecl (decl : FuncDecl) : result string :=
  let s := "func " in
  let signature (s : string) : result string :=
    p <- formatFuncParams (Params (DeclType decl)) ;;
    let s := s +++ Name (DeclName decl) +++ "(" +++ p +++ ")" in
    r <- formatFuncResults (Results (DeclType decl)) ;;
    Ok (s +++ r) in
  match Recv decl with
  | Some recv =>
      if negb (len (List_ recv) =? 1) then
        Panic (StrangeReceiver (Name (DeclName decl)))
      else
        field <- index (List_ recv) 0 ;;
        if len (Names field) =? 0 then
          (* function definition in interface (ignore) *)
          Ok ""
        else if negb (len (Names field) =? 1) then
          Panic (StrangeReceiverField (Name (DeclName decl)))
        else
          name0 <- index (Names field) 0 ;;
          t <- formatType (Type_ field) ;;
          signature (s +++ "(" +++ Name name0 +++ " " +++ t +++ ") ")
  | None => signature s
  end.

(** ** The visibility classifier and the printing loop *)

(** Standard output: the lines written so far, oldest first. *)
Definition Stdout : Type := list string.

(** A computation that prints: from the output so far to the output
    after it and its outcome.  What was printed before a panic stays
    printed. *)
Definition IO (A : Type) : Type := Stdout -> Stdout * result A.

Definition ret {A : Type} (a : A) : IO A := fun out => (out, Ok a).

Definition lift {A : Type} (r : result A) : IO A := fun out => (out, r).

Definition bindIO {A B : Type} (m : IO A) (k : A -> IO B) : IO B :=
  fun out =>
    match m out with
    | (out', Ok a) => k a out'
    | (out', Panic p) => (out', Panic p)
    end.

Notation "x <~ e ;; k" := (bindIO e (fun x => k))
  (at level 61, e at next level, right associativity).
Notation "e ;;; k" := (bindIO e (fun _ => k))
  (at level 61, right associativity).

(** [fmt.Println(s)]. *)
Definition Println (s : string) : IO unit := fun out => (out ++ [s], Ok tt)%list.

(** A Go [error] value; [None] is [nil]. *)
Definition error : Type := option string.

Section Listing.

(** [unicode.IsUpper], of the Go standard library: the listing is
    defined, and its properties proved, for any such predicate. *)
Variable IsUpper : rune -> bool.

(** The closure [isUpper0] of [exported]. *)
Definition isUpper0 (s : string) : result bool :=
  if HasPrefix s "*" then
    r <- index (stringtoslicerune s) 1 ;; Ok (IsUpper r)
  else
    r <- index (stringtoslicerune s) 0 ;; Ok (IsUpper r).

Definition exported (decl : FuncDecl) : result bool :=
  match Recv decl with
  | Some recv =>
      if negb (len (List_ recv) =? 1) then
        Panic (StrangeReceiver (Name (DeclName decl)))
      else
        field <- index (List_ recv) 0 ;;
        t <- formatType (Type_ field) ;;
        a <- isUpper0 t ;;
        if a then isUpper0 (Name (DeclName decl)) else Ok false
  | None => isUpper0 (Name (DeclName decl))
  end.

(** The body of the loop of [printFuncsInFile] for one declaration. *)
Definition printDecl (xdecl : Decl) (verbose : bool) : IO unit :=
  match xdecl with
  | FuncDeclD decl =>
      e <~ lift (exported decl) ;;
      if e then
        if verbose then
          s <~ lift (formatFuncDecl decl) ;; Println s
        else
          Println (Name (DeclName decl))
      else ret tt
  | _ => ret tt
  end.

Fixpoint printDecls (decls : list Decl) (verbose : bool) : IO unit :=
  match decls with
  | [] => ret tt
  | xdecl :: rest => printDecl xdecl verbose ;;; printDecls rest verbose
  end.

Definition printFuncsInFile (file : File) (verbose : bool) : IO error :=
  printDecls (Decls file) verbose ;;; ret None.

(** The inner loop of [printFuncsInProgram], over the files of a
    package, leaving at the first error. *)
Fixpoint printFuncsInFiles (files : list File) (verbose : bool) : IO error :=
  match files with
  | [] => ret None
  | file :: rest =>
      err <~ printFuncsInFile file verbose ;;
      match err with
      | Some e => ret (Some e)
      | None => printFuncsInFiles rest verbose
      end
  end.

Fixpoint printFuncsInPackages (pkgs : list PackageInfo) (verbose : bool)
  : IO error :=
  match pkgs with
  | [] => ret None
  | pkgInfo :: rest =>
      err <~ printFuncsInFiles (Files pkgInfo) verbose ;;
      match err with
      | Some e => ret (Some e)
      | None => printFuncsInPackages rest verbose
      end
  end.

Definition printFuncsInProgram (prog : Program) (verbose : bool) : IO error :=
  printFuncsInPackages (InitialPackages prog) verbose.

End Listing.

(** ** Vocabulary of the properties *)

(** [strings.Join(l, sep)]. *)
Fixpoint Join (l : list string) (sep : string) : string :=
  match l with
  | [] => ""
  | [a] => a
  | a :: rest => a +++ sep +++ Join rest sep
  end.

(** Results of [f] on the elements of [l], in order, up to the first
    panic. *)
Fixpoint mapM {A B : Type} (f : A -> result B) (l : list A) : result (list B) :=
  match l with
  | [] => Ok []
  | a :: rest => b <- f a ;; bs <- mapM f rest ;; Ok (b :: bs)
  end.

(** What precedes the type in a rendered field: nothing when the field
    has no names, else the names joined by [", "] and one space. *)
Definition namesPrefix (names : list Ident) : string :=
  match names with
  | [] => ""
  | _ => Join (map Name names) ", " +++ " "
  end.

Definition renderField (field : Field) : result string :=
  t <- formatType (Type_ field) ;; Ok (namesPrefix (Names field) +++ t).

(** Field-list rendering in the words of the specification: within a
    field the names are comma-joined, followed by a space and the
    rendered type; fields are joined by [", "]. *)
Definition RenderFieldSpec (field : Field) : result string :=
  t <- formatType (Type_ field) ;;
  Ok (Join (map Name (Names field)) ", " +++ " " +++ t).

Definition RenderFieldsSpec (fields : FieldList) : result string :=
  ss <- mapM RenderFieldSpec (List_ fields) ;; Ok (Join ss ", ").

(** A text with one leading [*] removed, and its first rune. *)
Definition stripStar (s : string) : string :=
  if HasPrefix s "*" then skip 1 s else s.

Definition firstRune (s : string) : option rune :=
  hd_error (stringtoslicerune s).

(** The node kinds of the [default] branch of [formatType]. *)
Definition unsupportedShape (t : Expr) : bool :=
  match t with
  | ParenExpr _ | StructType | InterfaceType | OtherExpr => true
  | _ => false
  end.

(** A channel type or a node of an unsupported kind, at the root of a
    type expression or anywhere [formatType] descends to. *)
Fixpoint hasUnsupported (t : Expr) : bool :=
  match t with
  | NilExpr | IdentExpr _ | BasicLit _ => false
  | SelectorExpr X _ | StarExpr X | Ellipsis X => hasUnsupported X
  | ArrayType A B | MapType A B => hasUnsupported A || hasUnsupported B
  | FuncTypeExpr t =>
      existsb (fun f => hasUnsupported (Type_ f)) (List_ (Params t))
      || match Results t with
         | Some results =>
             existsb (fun f => hasUnsupported (Type_ f)) (List_ results)
         | None => false
         end
  | ChanType _ _ => true
  | ParenExpr _ | StructType | InterfaceType | OtherExpr => true
  end.

Definition fieldsHaveUnsupported (fl : FieldList) : bool :=
  existsb (fun f => hasUnsupported (Type_ f)) (List_ fl).

(** The panics of [formatType]. *)
Definition isUnsupportedPanic (p : PanicValue) : bool :=
  match p with
  | UnsupportedChanType | UnsupportedType => true
  | _ => false
  end.

(** What [formatType] does on [t], read off the tree: a panic of one of
    its two kinds when [t] holds a channel type or an unsupported node,
    a string otherwise. *)
Definition formatTypeOutcome (t : Expr) : Prop :=
  if hasUnsupported t
  then exists p, formatType t = Panic p /\ isUnsupportedPanic p = true
  else exists s, formatType t = Ok s.

Definition formatFieldsOutcome (fl : FieldList) : Prop :=
  if fieldsHaveUnsupported fl
  then exists p, formatFields fl = Panic p /\ isUnsupportedPanic p = true
  else exists s, formatFields fl = Ok s.

(** A declaration that [printFuncsInFile] gets through without panic:
    [exported] returns and, when it says yes in verbose mode, so does
    [formatFuncDecl]. *)
Definition printsCleanly (IsUpper : rune -> bool) (verbose : bool)
  (decl : FuncDecl) : bool :=
  match exported IsUpper decl with
  | Ok true =>
      if verbose then
        match formatFuncDecl decl with
        | Ok _ => true
        | Panic _ => false
        end
      else true
  | Ok false => true
  | Panic _ => false
  end.

(** The function declarations among the declarations of a file, and all the
    declarations a run goes through, in order. *)
Definition funcDecls (decls : list Decl) : list FuncDecl :=
  flat_map (fun xdecl => match xdecl with FuncDeclD decl => [decl] | _ => [] end)
           decls.

Definition allDecls (prog : Program) : list Decl :=
  flat_map (fun pkgInfo => flat_map Decls (Files pkgInfo)) (InitialPackages prog).

(** [exported] as a total predicate, and the line of an exported
    declaration in either mode. *)
Definition isExported (IsUpper : rune -> bool) (decl : FuncDecl) : bool :=
  match exported IsUpper decl with
  | Ok b => b
  | Panic _ => false
  end.

Definition entry (verbose : bool) (decl : FuncDecl) : string :=
  if verbose then
    match formatFuncDecl decl with
    | Ok s => s
    | Panic _ => ""
    end
  else Name (DeclName decl).

(** ** Sample inputs *)

(** [unicode.IsUpper] on Latin-1 (U+0000 to U+00FF): the letters [A] to
    [Z], U+00C0 to U+00D6 and U+00D8 to U+00DE.  The samples below keep
    their names inside that range, beyond which this instance says
    [false]. *)
Definition isUpperLatin1 (r : rune) : bool :=
  ((65 <=? r) && (r <=? 90)) || ((192 <=? r) && (r <=? 214))
  || ((216 <=? r) && (r <=? 222)).

Definition ident (name : string) : Expr := IdentExpr (mkIdent name).

(** [name1, name2 typ] as a field. *)
Definition field (names : list string) (typ : Expr) : Field :=
  mkField (map mkIdent names) typ.

Definition fields (l : list Field) : FieldList := mkFieldList l.

(** [func name(params) results], without or with a receiver. *)
Definition funcDecl (recv : option FieldList) (name : string)
  (params : list Field) (results : option (list Field)) : FuncDecl :=
  mkFuncDecl recv (mkIdent name)
             (mkFuncType (fields params) (option_map fields results)).

(** [func (T) Foo()]: a method of [T] whose receiver is not named. *)
Definition unnamedReceiverMethod : FuncDecl :=
  funcDecl (Some (fields [field [] (ident "T")])) "Foo" [] None.

(** [func (r *Reader) Read(p []byte) (n int, err error)]. *)
Definition readMethod : FuncDecl :=
  funcDecl (Some (fields [field ["r"] (StarExpr (ident "Reader"))])) "Read"
           [field ["p"] (ArrayType NilExpr (ident "byte"))]
           (Some [field ["n"] (ident "int"); field ["err"] (ident "error")]).

(** [func Join(a []string, sep string) string] and
    [func split(s string) []string]. *)
Definition joinFunc : FuncDecl :=
  funcDecl None "Join"
           [field ["a"] (ArrayType NilExpr (ident "string"));
            field ["sep"] (ident "string")]
           (Some [field [] (ident "string")]).

Definition splitFunc : FuncDecl :=
  funcDecl None "split" [field ["s"] (ident "string")]
           (Some [field [] (ArrayType NilExpr (ident "string"))]).

(** [func Watch(c chan int)]. *)
Definition watchFunc : FuncDecl :=
  funcDecl None "Watch" [field ["c"] (ChanType SENDRECV (ident "int"))] None.

(** [func F() (n, m int)]. *)
Definition twoNamesOneField : FuncDecl :=
  funcDecl None "F" [] (Some [field ["n"; "m"] (ident "int")]).

(** A declaration with two receiver fields, which no parser produces. *)
Definition twoReceivers : FuncDecl :=
  funcDecl (Some (fields [field ["a"] (ident "T"); field ["b"] (ident "U")]))
           "M" [] None.

Definition sampleFile : File :=
  mkFile [FuncDeclD joinFunc; GenDecl; FuncDeclD splitFunc; FuncDeclD readMethod;
          FuncDeclD joinFunc].

(** ** Build tags *)

(** [strings.Split(s, sep)] for a separator of one byte: the pieces of [s]
    between the occurrences of [sep], [piece] being the bytes read since
    the last one. *)
Fixpoint splitFrom (s : string) (sep : ascii) (piece : string) : list string :=
  match s with
  | EmptyString => [piece]
  | String c rest =>
      if Ascii.eqb c sep then piece :: splitFrom rest sep ""
      else splitFrom rest sep (piece +++ String c "")
  end.

Definition Split (s : string) (sep : ascii) : list string := splitFrom s sep "".

(** [strings.Count(s, sep)] for a separator of one byte. *)
Fixpoint Count (s : string) (sep : ascii) : nat :=
  match s with
  | EmptyString => O
  | String c rest => if Ascii.eqb c sep then S (Count rest sep) else Count rest sep
  end.

Section BuildTags.

(** [strings.TrimSpace], of the Go standard library. *)
Variable TrimSpace : string -> string.

(** The loop of [parseBuildTags], [for _, s := range split]. *)
Fixpoint appendTrimmed (split : list string) (result : list string) : list string :=
  match split with
  | [] => result
  | s :: rest => appendTrimmed rest (result ++ [TrimSpace s])%list
  end.

Definition parseBuildTags (tags : string) : list string :=
  let result := [] in
  let split := Split tags "," in
  appendTrimmed split result.

End BuildTags.

(** ** More vocabulary *)

(** The receiver list of the declaration is one field without a name. *)
Definition hasUnnamedReceiver (decl : FuncDecl) : bool :=
  match Recv decl with
  | Some recv =>
      match List_ recv with
      | [fld] => len (Names fld) =? 0
      | _ => false
      end
  | None => false
  end.

(** A declaration with its function type replaced by [f] of it, the
    receiver and the name kept. *)
Definition retype (f : FuncDecl -> FuncType) (xdecl : Decl) : Decl :=
  match xdecl with
  | FuncDeclD decl => FuncDeclD (mkFuncDecl (Recv decl) (DeclName decl) (f decl))
  | _ => xdecl
  end.

(** The texts [isUpper0] finds no rune to look at in. *)
Definition emptyOrStar (s : string) : bool := String.eqb s "" || String.eqb s "*".

(** The first rune of the text, one leading [*] taken off, is there and
    upper case. *)
Definition startsUpper (IsUpper : rune -> bool) (s : string) : bool :=
  match firstRune (stripStar s) with
  | Some r => IsUpper r
  | None => false
  end.

(** An empty line or a line that starts with [func ]. *)
Definition emptyOrFunc (s : string) : bool :=
  match s with
  | EmptyString => true
  | _ => HasPrefix s "func "
  end.

(** ** Induction on type expressions *)

(** Induction over type expressions that reaches the types of the fields
    of a function type. *)
Section ExprInduction.

Variable P : Expr -> Prop.

Hypothesis PNil : P NilExpr.
Hypothesis PIdent : forall t, P (IdentExpr t).
Hypothesis PSelector : forall X Sel, P X -> P (SelectorExpr X Sel).
Hypothesis PStar : forall X, P X -> P (StarExpr X).
Hypothesis PArray : forall Len Elt, P Len -> P Elt -> P (ArrayType Len Elt).
Hypothesis PEllipsis : forall Elt, P Elt -> P (Ellipsis Elt).
Hypothesis PFunc : forall params results,
  Forall (fun f => P (Type_ f)) (List_ params) ->
  match results with
  | Some r => Forall (fun f => P (Type_ f)) (List_ r)
  | None => True
  end ->
  P (FuncTypeExpr (mkFuncType params results)).
Hypothesis PMap : forall Key Value, P Key -> P Value -> P (MapType Key Value).
Hypothesis PChan : forall Dir Value, P Value -> P (ChanType Dir Value).
Hypothesis PBasicLit : forall Value, P (BasicLit Value).
Hypothesis PParen : forall X, P X -> P (ParenExpr X).
Hypothesis PStruct : P StructType.
Hypothesis PInterface : P InterfaceType.
Hypothesis POther : P OtherExpr.

Fixpoint Expr_fields_ind (e : Expr) : P e :=
  let all := fix all (l : list Field) : Forall (fun f => P (Type_ f)) l :=
    match l with
    | [] => Forall_nil _
    | f :: rest => Forall_cons f (Expr_fields_ind (Type_ f)) (all rest)
    end in
  match e with
  | NilExpr => PNil
  | IdentExpr t => PIdent t
  | SelectorExpr X Sel => PSelector X Sel (Expr_fields_ind X)
  | StarExpr X => PStar X (Expr_fields_ind X)
  | ArrayType Len Elt => PArray Len Elt (Expr_fields_ind Len) (Expr_fields_ind Elt)
  | Ellipsis Elt => PEllipsis Elt (Expr_fields_ind Elt)
  | FuncTypeExpr (mkFuncType params results) =>
      PFunc params results (all (List_ params))
        match results with
        | Some r => all (List_ r)
        | None => I
        end
  | MapType Key Value => PMap Key Value (Expr_fields_ind Key) (Expr_fields_ind Value)
  | ChanType Dir Value => PChan Dir Value (Expr_fields_ind Value)
  | BasicLit Value => PBasicLit Value
  | ParenExpr X => PParen X (Expr_fields_ind X)
  | StructType => PStruct
  | InterfaceType => PInterface
  | OtherExpr => POther
  end.

End ExprInduction.

(** ** Strings and results: basic facts *)

Lemma append_assoc (a b c : string) : (a +++ b) +++ c = a +++ b +++ c.
Proof.
  induction a as [|x a IH]; simpl; [reflexivity | now rewrite IH].
Qed.

Lemma append_empty_r (a : string) : a +++ "" = a.
Proof.
  induction a as [|x a IH]; simpl; [reflexivity | now rewrite IH].
Qed.

Lemma bind_Ok {A B : Type} (a : A) (k : A -> result B) : bind (Ok a) k = k a.
Proof. reflexivity. Qed.

Lemma bind_assoc {A B C : Type} (r : result A) (f : A -> result B)
  (g : B -> result C) :
  bind (bind r f) g = bind r (fun a => bind (f a) g).
Proof. destruct r; reflexivity. Qed.

Lemma bind_ext {A B : Type} (r : result A) (f g : A -> result B) :
  (forall a, f a = g a) -> bind r f = bind r g.
Proof. intros H; destruct r; simpl; auto. Qed.

Lemma len_cons {A : Type} (a : A) (l : list A) : len (a :: l) = len l + 1.
Proof. unfold len; simpl length; lia. Qed.

Lemma len_nonneg {A : Type} (l : list A) : 0 <= len l.
Proof. unfold len; lia. Qed.

(** ** The loops of [formatFields] *)

(** The inner loop, run to the end of the names, appends [namesPrefix]. *)
Lemma formatNames_spec (names : list Ident) :
  forall (j n : Z) (s : string),
    n = j + len names ->
    formatNames names j n s = s +++ namesPrefix names.
Proof.
  induction names as [|name rest IH]; intros j n s Hn.
  - simpl. now rewrite append_empty_r.
  - rewrite len_cons in Hn. simpl formatNames.
    destruct rest as [|name' rest'].
    + replace (j =? n - 1) with true
        by (symmetry; apply Z.eqb_eq; unfold len in Hn; simpl in Hn; lia).
      simpl. now rewrite append_assoc.
    + replace (j =? n - 1) with false
        by (symmetry; apply Z.eqb_neq; pose proof (len_nonneg rest');
            rewrite len_cons in Hn; lia).
      cbn [negb]. rewrite IH by lia.
      unfold namesPrefix. cbn [map Join].
      now rewrite !append_assoc.
Qed.

Lemma mapM_length {A B : Type} (f : A -> result B) (l : list A) :
  forall bs, mapM f l = Ok bs -> length bs = length l.
Proof.
  induction l as [|a rest IH]; simpl; intros bs H.
  - now inversion H.
  - destruct (f a) as [b|p]; simpl in H; [|discriminate].
    destruct (mapM f rest) as [bs'|p]; simpl in H; [|discriminate].
    inversion H; subst; simpl. now rewrite (IH bs' eq_refl).
Qed.

(** The outer loop, run to the end of the fields, appends the fields
    rendered one by one and joined by [", "]; it panics where the first
    type does. *)
Lemma formatFieldsFrom_spec (l : list Field) :
  forall (i n : Z) (s : string),
    n = i + len l ->
    formatFieldsFrom formatType l i n s
    = ss <- mapM renderField l ;; Ok (s +++ Join ss ", ").
Proof.
  induction l as [|f rest IH]; intros i n s Hn.
  - simpl. now rewrite append_empty_r.
  - rewrite len_cons in Hn. cbn [formatFieldsFrom mapM].
    rewrite formatNames_spec by lia.
    unfold renderField at 1. rewrite !bind_assoc.
    apply bind_ext; intros t. rewrite bind_Ok.
    destruct rest as [|f' rest'].
    + replace (i =? n - 1) with true
        by (symmetry; apply Z.eqb_eq; unfold len in Hn; simpl in Hn; lia).
      simpl. now rewrite append_assoc.
    + replace (i =? n - 1) with false
        by (symmetry; apply Z.eqb_neq; pose proof (len_nonneg rest');
            rewrite len_cons in Hn; lia).
      cbn [negb]. rewrite IH by lia.
      destruct (mapM renderField (f' :: rest')) as [ss|p] eqn:E;
        [|reflexivity].
      apply mapM_length in E.
      destruct ss as [|s0 ss0]; [discriminate E|].
      rewrite !bind_Ok. cbn [Join]. now rewrite !append_assoc.
Qed.

Lemma formatFields_spec (fl : FieldList) :
  formatFields fl = ss <- mapM renderField (List_ fl) ;; Ok (Join ss ", ").
Proof.
  unfold formatFields, formatFieldsWith.
  rewrite (formatFieldsFrom_spec (List_ fl) 0 (len (List_ fl)) "") by reflexivity.
  reflexivity.
Qed.

Lemma formatFuncResults_Some (fl : FieldList) :
  formatFuncResults (Some fl)
  = f <- formatFields fl ;;
    Ok (" " +++ (if 1 <? len (List_ fl) then "(" +++ f +++ ")" else f)).
Proof.
  unfold formatFuncResults, formatFuncResultsWith.
  fold (formatFields fl).
  destruct (formatFields fl) as [f|p]; [|reflexivity].
  rewrite !bind_Ok.
  destruct (1 <? len (List_ fl)); simpl; reflexivity.
Qed.

(** A field with a name renders the same in the specification's words. *)
Lemma renderField_named (f : Field) :
  Names f <> [] -> renderField f = RenderFieldSpec f.
Proof.
  intros H. unfold renderField, RenderFieldSpec, namesPrefix.
  destruct (Names f) as [|name rest]; [contradiction|].
  apply bind_ext; intros t. now rewrite append_assoc.
Qed.

Lemma mapM_ext_Forall {A B : Type} (P : A -> Prop) (f g : A -> result B)
  (l : list A) :
  (forall a, P a -> f a = g a) -> Forall P l -> mapM f l = mapM g l.
Proof.
  intros Hfg H. induction H as [|a rest Ha _ IH]; simpl; [reflexivity|].
  now rewrite (Hfg a Ha), IH.
Qed.

(** ** Rendering of types, field lists and result lists *)

(** C3. [formatType] composes over the shapes it supports: a slice of
    pointer to an identifier [X] renders as [[]*X], a pointer to a map
    from [string] to slice of [int] as [*map[string][]int], and
    [SpecialCase] selected from [unicode] as [unicode.SpecialCase]; the
    rendering of a pointer, slice, map or selector is built from the
    renderings of its parts. *)
Theorem C3_formatType_composes :
  (forall X : Ident,
     formatType (ArrayType NilExpr (StarExpr (IdentExpr X)))
     = Ok ("[]*" +++ Name X))
  /\ formatType (StarExpr (MapType (ident "string")
                                    (ArrayType NilExpr (ident "int"))))
     = Ok "*map[string][]int"
  /\ formatType (SelectorExpr (ident "unicode") (mkIdent "SpecialCase"))
     = Ok "unicode.SpecialCase"
  /\ (forall T : Expr,
        formatType (StarExpr T) = t <- formatType T ;; Ok ("*" +++ t))
  /\ (forall T : Expr,
        formatType (ArrayType NilExpr T) = t <- formatType T ;; Ok ("[]" +++ t))
  /\ (forall K V : Expr,
        formatType (MapType K V)
        = k <- formatType K ;; v <- formatType V ;;
          Ok ("map[" +++ k +++ "]" +++ v))
  /\ (forall (P : Expr) (Sel : Ident),
        formatType (SelectorExpr P Sel)
        = p <- formatType P ;; Ok (p +++ "." +++ Name Sel)).
Proof.
  repeat split; reflexivity.
Qed.

(** C4, as amended.  [formatFields] goes through the fields in order and
    joins their renderings by [", "]; a field with at least one name
    renders as its names joined by [", "], one space and its type, the
    type rendered once, after the last name; a field with no name
    renders as its type alone, with no space before it.  So the
    specification's rendering is right on every field list whose fields
    are all named, and [(a, b string)] renders as [a, b string]. *)
Theorem C4_formatFields_joins_names_and_fields (fl : FieldList) :
  formatFields fl = (ss <- mapM renderField (List_ fl) ;; Ok (Join ss ", "))
  /\ (Forall (fun f => Names f <> []) (List_ fl) ->
      formatFields fl = RenderFieldsSpec fl)
  /\ (forall (name : Ident) (rest : list Ident) (typ : Expr),
        renderField (mkField (name :: rest) typ)
        = t <- formatType typ ;;
          Ok (Join (map Name (name :: rest)) ", " +++ " " +++ t))
  /\ (forall typ : Expr, renderField (mkField [] typ) = formatType typ)
  /\ formatFields (fields [field ["a"; "b"] (ident "string")])
     = Ok "a, b string".
Proof.
  split; [apply formatFields_spec|].
  split.
  - intros H. rewrite formatFields_spec. unfold RenderFieldsSpec.
    now rewrite (mapM_ext_Forall _ _ _ _ renderField_named H).
  - split; [|split; [|reflexivity]].
    + intros name rest typ. now apply renderField_named.
    + intros typ. unfold renderField. simpl.
      destruct (formatType typ); reflexivity.
Qed.

Lemma C4_named_fields_witness :
  Forall (fun f : Field => Names f <> [])
         (List_ (fields [field ["a"; "b"] (ident "string");
                         field ["n"] (ident "int")]))
  /\ formatFields (fields [field ["a"; "b"] (ident "string");
                           field ["n"] (ident "int")])
     = Ok "a, b string, n int".
Proof.
  assert (H : Forall (fun f : Field => Names f <> [])
                (List_ (fields [field ["a"; "b"] (ident "string");
                                field ["n"] (ident "int")])))
    by (repeat constructor; discriminate).
  split; [exact H|].
  rewrite (proj1 (proj2 (C4_formatFields_joins_names_and_fields _)) H).
  reflexivity.
Defined.

(** C4 as first stated fails on a field without names: the code renders
    the unnamed field of type [int] as [int], the stated rule (names,
    then a space, then the type) as [ int]. *)
Lemma C4_unnamed_field_counterexample :
  formatFields (fields [field [] (ident "int")]) = Ok "int"
  /\ RenderFieldsSpec (fields [field [] (ident "int")]) = Ok " int".
Proof.
  split; reflexivity.
Qed.

(** C5. The result suffix of a declaration is empty when it has no
    result list; otherwise it is one space followed by the rendered
    result fields, wrapped in parentheses exactly when the list has more
    than one field. *)
Theorem C5_result_suffix (decl : FuncDecl) :
  match Results (DeclType decl) with
  | None => formatFuncResults (Results (DeclType decl)) = Ok ""
  | Some fl =>
      formatFuncResults (Results (DeclType decl))
      = f <- formatFields fl ;;
        Ok (" " +++ (if 1 <? len (List_ fl) then "(" +++ f +++ ")" else f))
  end.
Proof.
  destruct (Results (DeclType decl)) as [fl|].
  - apply formatFuncResults_Some.
  - reflexivity.
Qed.

(** C6. A variadic type [...T] renders exactly as [T] does: the ellipsis
    is dropped, and the parameter of [f(xs ...int)] renders as [xs int]. *)
Theorem C6_ellipsis_is_dropped :
  (forall T : Expr, formatType (Ellipsis T) = formatType T)
  /\ formatFuncParams (fields [field ["xs"] (Ellipsis (ident "int"))])
     = Ok "xs int"
  /\ formatFuncDecl (funcDecl None "f" [field ["xs"] (Ellipsis (ident "int"))]
                              None)
     = Ok "func f(xs int)".
Proof.
  repeat split; reflexivity.
Qed.

(** C10. A result list of exactly one field that has two or more names
    renders without parentheses: the suffix is one space, the names
    joined by [", "], one space and the type, whatever the number of
    values returned; [func F() (n, m int)] renders as
    [func F() n, m int]. *)
Theorem C10_one_field_many_names_no_parentheses
  (recv : option FieldList) (name : Ident) (params : FieldList)
  (n m : Ident) (rest : list Ident) (typ : Expr) :
  formatFuncResults
    (Results (DeclType (mkFuncDecl recv name
       (mkFuncType params (Some (mkFieldList [mkField (n :: m :: rest) typ]))))))
  = (t <- formatType typ ;;
     Ok (" " +++ Join (map Name (n :: m :: rest)) ", " +++ " " +++ t))
  /\ formatFuncDecl twoNamesOneField = Ok "func F() n, m int".
Proof.
  split; [|reflexivity].
  cbn [Results DeclType]. rewrite formatFuncResults_Some, formatFields_spec.
  cbn [List_ mapM]. rewrite (renderField_named (mkField (n :: m :: rest) typ))
    by discriminate.
  unfold RenderFieldSpec. cbn [Names Type_].
  destruct (formatType typ) as [t|p]; reflexivity.
Qed.

(** ** Runes *)

(** The conversion to runes goes rune by rune: the width [nextRune] gives
    always stays inside the string. *)
Lemma stringtoslicerune_step (s : string) :
  s <> "" ->
  stringtoslicerune s
  = (fst (nextRune s) :: stringtoslicerune (skip (snd (nextRune s)) s))%list.
Proof.
  intros Hs. destruct s as [|c0 s1]; [contradiction|].
  cbn [stringtoslicerune].
  destruct (nextRune (String c0 s1)) as [r w] eqn:E. cbn [fst snd].
  f_equal.
  unfold nextRune in E.
  destruct (byte c0 <? runeSelf); [inversion E; reflexivity|].
  unfold decoderune in E.
  destruct s1 as [|c1 s2]; [inversion E; reflexivity|].
  repeat match type of E with
         | (if ?b then _ else _) = _ => destruct b
         | (match ?x with EmptyString => _ | String _ _ => _ end) = _ => destruct x
         | (let _ := _ in _) = _ => cbv zeta in E
         end;
    inversion E; reflexivity.
Qed.

Lemma stringtoslicerune_self (c : ascii) (s : string) :
  byte c < runeSelf ->
  stringtoslicerune (String c s) = (byte c :: stringtoslicerune s)%list.
Proof.
  intros H. cbn [stringtoslicerune nextRune].
  apply Z.ltb_lt in H. rewrite H. reflexivity.
Qed.

Lemma HasPrefix_star (s : string) :
  HasPrefix s "*" = true -> exists rest, s = String "*" rest.
Proof.
  unfold HasPrefix. destruct s as [|c rest]; cbn [prefix]; [discriminate|].
  destruct (ascii_dec "*" c) as [<-|]; [eauto | discriminate].
Qed.

Section Classifier.

Variable IsUpper : rune -> bool.

(** [isUpper0] looks at the first rune of the text once a leading [*] is
    taken off, and panics when there is none. *)
Lemma isUpper0_spec (s : string) :
  isUpper0 IsUpper s
  = match firstRune (stripStar s) with
    | Some r => Ok (IsUpper r)
    | None => Panic IndexOutOfRange
    end.
Proof.
  unfold isUpper0, stripStar, firstRune.
  destruct (HasPrefix s "*") eqn:E.
  - destruct (HasPrefix_star s E) as [rest ->].
    rewrite stringtoslicerune_self by (vm_compute; reflexivity).
    cbn [skip]. unfold index. cbn [nth_error].
    destruct (stringtoslicerune rest); reflexivity.
  - unfold index. destruct (stringtoslicerune s); reflexivity.
Qed.

Lemma isUpper0_plain (s : string) (r : rune) :
  HasPrefix s "*" = false -> firstRune s = Some r ->
  isUpper0 IsUpper s = Ok (IsUpper r).
Proof.
  intros Hp Hr. rewrite isUpper0_spec. unfold stripStar.
  now rewrite Hp, Hr.
Qed.

Lemma single_field (recv : FieldList) (fld : Field) :
  List_ recv = [fld] ->
  negb (len (List_ recv) =? 1) = false /\ index (List_ recv) 0 = Ok fld.
Proof.
  intros ->. split; reflexivity.
Qed.

Lemma not_single_field (recv : FieldList) :
  length (List_ recv) <> 1%nat -> negb (len (List_ recv) =? 1) = true.
Proof.
  intros H. apply negb_true_iff, Z.eqb_neq. unfold len. lia.
Qed.

End Classifier.

(** ** The visibility rule *)

(** C2. A declaration without receiver is exported exactly when the
    first rune of its name is upper case; a declaration whose receiver
    list has one field is exported exactly when both the first rune of
    the rendered receiver type, one leading [*] taken off, and the first
    rune of its name are upper case.  Runes are those of the UTF-8
    decoding, and upper case is [unicode.IsUpper]; a name is an
    identifier, so it does not start with [*] and is not empty. *)
Theorem C2_exported_by_first_runes
  (IsUpper : rune -> bool) (decl : FuncDecl) (rn : rune) :
  HasPrefix (Name (DeclName decl)) "*" = false ->
  firstRune (Name (DeclName decl)) = Some rn ->
  (Recv decl = None -> exported IsUpper decl = Ok (IsUpper rn))
  /\ (forall (recv : FieldList) (fld : Field) (t : string) (rt : rune),
        Recv decl = Some recv -> List_ recv = [fld] ->
        formatType (Type_ fld) = Ok t ->
        firstRune (stripStar t) = Some rt ->
        exported IsUpper decl = Ok (IsUpper rt && IsUpper rn)).
Proof.
  intros Hp Hn. split.
  - intros Hr. unfold exported. rewrite Hr. now apply isUpper0_plain.
  - intros recv fld t rt Hr Hl Ht Hrt. unfold exported. rewrite Hr.
    destruct (single_field recv fld Hl) as [-> ->].
    rewrite bind_Ok, Ht, bind_Ok, isUpper0_spec, Hrt, bind_Ok.
    destruct (IsUpper rt); [|reflexivity].
    now apply isUpper0_plain.
Qed.

Lemma C2_exported_witness :
  exported isUpperLatin1 splitFunc = Ok false
  /\ exported isUpperLatin1 readMethod = Ok true.
Proof.
  split.
  - apply (proj1 (C2_exported_by_first_runes isUpperLatin1 splitFunc 115
                    eq_refl eq_refl) eq_refl).
  - apply (proj2 (C2_exported_by_first_runes isUpperLatin1 readMethod 82
                    eq_refl eq_refl)
             (fields [field ["r"] (StarExpr (ident "Reader"))])
             (field ["r"] (StarExpr (ident "Reader")))
             "*Reader" 82 eq_refl eq_refl eq_refl eq_refl).
Defined.

(** The three methods the specification gives as examples, and a name
    whose first rune (U+00D1) takes two bytes. *)
Lemma exported_examples :
  exported isUpperLatin1
    (funcDecl (Some (fields [field ["m"] (StarExpr (ident "myType"))]))
              "Foo" [] None) = Ok false
  /\ exported isUpperLatin1
       (funcDecl (Some (fields [field ["m"] (StarExpr (ident "MyType"))]))
                 "foo" [] None) = Ok false
  /\ exported isUpperLatin1
       (funcDecl (Some (fields [field ["m"] (ident "MyType")]))
                 "Foo" [] None) = Ok true
  /\ exported isUpperLatin1
       (funcDecl None (String (ascii_of_nat 195) (String (ascii_of_nat 145) "andu"))
                 [] None) = Ok true.
Proof.
  repeat split; reflexivity.
Qed.

(** ** The printing loop *)

Section Run.

Variable IsUpper : rune -> bool.

(** Printing a list of declarations is printing its first part, then
    (unless that panicked) the rest. *)
Lemma printDecls_app (a b : list Decl) (verbose : bool) (out : Stdout) :
  printDecls IsUpper (a ++ b) verbose out
  = (printDecls IsUpper a verbose ;;; printDecls IsUpper b verbose) out.
Proof.
  revert out. induction a as [|x a IH]; intros out; [reflexivity|].
  cbn [app printDecls]. unfold bindIO.
  destruct (printDecl IsUpper x verbose out) as [out1 [[]|p]]; [|reflexivity].
  rewrite IH. reflexivity.
Qed.

(** [printFuncsInFile] never returns an error, so the loops over files
    and packages never leave early: a run is one pass over all the
    declarations. *)
Lemma printFuncsInFiles_flat (files : list File) (verbose : bool) (out : Stdout) :
  printFuncsInFiles IsUpper files verbose out
  = (printDecls IsUpper (flat_map Decls files) verbose ;;; ret None) out.
Proof.
  revert out. induction files as [|file rest IH]; intros out; [reflexivity|].
  cbn [printFuncsInFiles flat_map]. unfold printFuncsInFile.
  unfold bindIO. rewrite printDecls_app. unfold bindIO.
  destruct (printDecls IsUpper (Decls file) verbose out) as [out1 [[]|p]];
    [|reflexivity].
  cbn [ret]. rewrite IH. reflexivity.
Qed.

Lemma printFuncsInPackages_flat (pkgs : list PackageInfo) (verbose : bool)
  (out : Stdout) :
  printFuncsInPackages IsUpper pkgs verbose out
  = (printDecls IsUpper
       (flat_map (fun pkgInfo => flat_map Decls (Files pkgInfo)) pkgs) verbose
     ;;; ret None) out.
Proof.
  revert out. induction pkgs as [|pkg rest IH]; intros out; [reflexivity|].
  cbn [printFuncsInPackages flat_map].
  unfold bindIO. rewrite printFuncsInFiles_flat, printDecls_app.
  unfold bindIO.
  destruct (printDecls IsUpper (flat_map Decls (Files pkg)) verbose out)
    as [out1 [[]|p]]; [|reflexivity].
  cbn [ret]. rewrite IH. reflexivity.
Qed.

Lemma printFuncsInProgram_flat (prog : Program) (verbose : bool) (out : Stdout) :
  printFuncsInProgram IsUpper prog verbose out
  = (printDecls IsUpper (allDecls prog) verbose ;;; ret None) out.
Proof.
  apply printFuncsInPackages_flat.
Qed.

(** A declaration that panics ends the run there: the output is what the
    declarations before it printed, and nothing of it or after it. *)
Lemma run_aborts (prog : Program) (pre post : list Decl) (xdecl : Decl)
  (verbose : bool) (out out1 out2 : Stdout) (p : PanicValue) :
  allDecls prog = (pre ++ xdecl :: post)%list ->
  printDecls IsUpper pre verbose out = (out1, Ok tt) ->
  printDecl IsUpper xdecl verbose out1 = (out2, Panic p) ->
  printFuncsInProgram IsUpper prog verbose out = (out2, Panic p).
Proof.
  intros Hd Hpre Hx.
  rewrite printFuncsInProgram_flat, Hd.
  unfold bindIO. rewrite printDecls_app.
  unfold bindIO. rewrite Hpre.
  cbn [printDecls]. unfold bindIO. now rewrite Hx.
Qed.

End Run.

(** ** Unsupported type expressions *)

Ltac done_outcome := cbn [bind orb]; eauto.

Lemma mapM_renderField_outcome (l : list Field) :
  Forall (fun f => formatTypeOutcome (Type_ f)) l ->
  if existsb (fun f => hasUnsupported (Type_ f)) l
  then exists p, mapM renderField l = Panic p /\ isUnsupportedPanic p = true
  else exists ss, mapM renderField l = Ok ss.
Proof.
  induction 1 as [|f rest Hf _ IH]; cbn [existsb mapM]; [eauto|].
  unfold formatTypeOutcome in Hf. unfold renderField at 1. unfold renderField at 2.
  destruct (hasUnsupported (Type_ f)); cbn [orb].
  - destruct Hf as (p & -> & Hp). done_outcome.
  - destruct Hf as (s & ->). cbn [bind].
    destruct (existsb _ rest).
    + destruct IH as (p & -> & Hp). done_outcome.
    + destruct IH as (ss & ->). done_outcome.
Qed.

Lemma formatFields_outcome (fl : FieldList) :
  Forall (fun f => formatTypeOutcome (Type_ f)) (List_ fl) ->
  formatFieldsOutcome fl.
Proof.
  intros H. apply mapM_renderField_outcome in H.
  unfold formatFieldsOutcome, fieldsHaveUnsupported.
  rewrite formatFields_spec.
  destruct (existsb _ (List_ fl)).
  - destruct H as (p & -> & Hp). done_outcome.
  - destruct H as (ss & ->). cbn [bind]. done_outcome.
Qed.

Lemma formatType_outcome (t : Expr) : formatTypeOutcome t.
Proof.
  induction t using Expr_fields_ind; unfold formatTypeOutcome in *;
    cbn [hasUnsupported formatType];
    try solve [eauto];
    repeat match goal with
      | H : (if hasUnsupported ?X then _ else _) |- _ =>
          destruct (hasUnsupported X);
          [destruct H as (? & -> & ?) | destruct H as (? & ->)]
      end;
    cbn [orb bind]; done_outcome.
  cbn [Params Results].
  apply formatFields_outcome in H. unfold formatFieldsOutcome in H.
  change (formatFuncParamsWith formatType params) with (formatFields params).
  change (formatFuncResultsWith formatType results)
    with (formatFuncResults results).
  fold (fieldsHaveUnsupported params).
  destruct (fieldsHaveUnsupported params); cbn [orb].
  - destruct H as (p & -> & Hp). done_outcome.
  - destruct H as (s & ->). cbn [bind].
    destruct results as [r|]; [|cbn; eauto].
    apply formatFields_outcome in H0. unfold formatFieldsOutcome in H0.
    rewrite formatFuncResults_Some. fold (fieldsHaveUnsupported r).
    destruct (fieldsHaveUnsupported r).
    + destruct H0 as (p & -> & Hp). done_outcome.
    + destruct H0 as (s' & ->). cbn [bind]. done_outcome.
Qed.

(** C7. [formatType] returns no string on a channel type or on a node of
    a kind outside its cases: it panics.  The panic goes up through every
    enclosing type expression and field list, so nothing is rendered in
    part, and in a verbose run it ends the run at the declaration being
    rendered, whose line is not printed. *)
Theorem C7_channel_and_unsupported_types_panic :
  (forall (Dir : ChanDir) (Value : Expr),
     formatType (ChanType Dir Value) = Panic UnsupportedChanType)
  /\ (forall t : Expr,
        unsupportedShape t = true -> formatType t = Panic UnsupportedType)
  /\ (forall t : Expr,
        hasUnsupported t = true ->
        exists p, formatType t = Panic p /\ isUnsupportedPanic p = true)
  /\ (forall fl : FieldList,
        fieldsHaveUnsupported fl = true ->
        exists p, formatFields fl = Panic p /\ isUnsupportedPanic p = true)
  /\ (forall (IsUpper : rune -> bool) (prog : Program) (pre post : list Decl)
             (decl : FuncDecl) (out out1 : Stdout) (p : PanicValue),
        allDecls prog = (pre ++ FuncDeclD decl :: post)%list ->
        printDecls IsUpper pre true out = (out1, Ok tt) ->
        exported IsUpper decl = Ok true ->
        formatFuncDecl decl = Panic p ->
        printFuncsInProgram IsUpper prog true out = (out1, Panic p)).
Proof.
  split; [reflexivity|].
  split; [intros t Ht; destruct t; try discriminate Ht; reflexivity|].
  split.
  { intros t Ht. pose proof (formatType_outcome t) as H.
    unfold formatTypeOutcome in H. now rewrite Ht in H. }
  split.
  { intros fl Hfl.
    assert (H : formatFieldsOutcome fl).
    { apply formatFields_outcome, Forall_forall.
      intros f _. apply formatType_outcome. }
    unfold formatFieldsOutcome in H. now rewrite Hfl in H. }
  intros IsUpper prog pre post decl out out1 p Hd Hpre He Hf.
  apply (run_aborts IsUpper prog pre post (FuncDeclD decl) true out out1 out1 p
           Hd Hpre).
  cbn [printDecl]. unfold bindIO, lift. now rewrite He, Hf.
Qed.

Lemma C7_channel_parameter_witness :
  unsupportedShape (ParenExpr (ident "T")) = true
  /\ formatType (ParenExpr (ident "T")) = Panic UnsupportedType
  /\ hasUnsupported (ArrayType NilExpr (ChanType RECV (ident "int"))) = true
  /\ (exists p, formatType (ArrayType NilExpr (ChanType RECV (ident "int")))
                = Panic p /\ isUnsupportedPanic p = true)
  /\ printFuncsInProgram isUpperLatin1
       (mkProgram [mkPackageInfo
          [mkFile [FuncDeclD joinFunc; FuncDeclD watchFunc; FuncDeclD joinFunc]]])
       true []
     = (["func Join(a []string, sep string) string"],
        Panic UnsupportedChanType).
Proof.
  pose proof C7_channel_and_unsupported_types_panic as (_ & H2 & H3 & _ & H5).
  split; [reflexivity|].
  split; [apply H2; reflexivity|].
  split; [reflexivity|].
  split; [apply H3; reflexivity|].
  apply (H5 isUpperLatin1 _ [FuncDeclD joinFunc] [FuncDeclD joinFunc] watchFunc
            [] _ UnsupportedChanType);
    reflexivity.
Defined.

(** C8. A declaration whose receiver list is there with a number of
    fields other than one makes both [exported] and [formatFuncDecl]
    panic, and the run ends at that declaration in either mode: no value
    is returned for it and it is not skipped. *)
Theorem C8_strange_receiver_aborts
  (IsUpper : rune -> bool) (decl : FuncDecl) (recv : FieldList) :
  Recv decl = Some recv ->
  length (List_ recv) <> 1%nat ->
  exported IsUpper decl = Panic (StrangeReceiver (Name (DeclName decl)))
  /\ formatFuncDecl decl = Panic (StrangeReceiver (Name (DeclName decl)))
  /\ (forall (prog : Program) (pre post : list Decl) (verbose : bool)
             (out out1 : Stdout),
        allDecls prog = (pre ++ FuncDeclD decl :: post)%list ->
        printDecls IsUpper pre verbose out = (out1, Ok tt) ->
        printFuncsInProgram IsUpper prog verbose out
        = (out1, Panic (StrangeReceiver (Name (DeclName decl))))).
Proof.
  intros Hr Hl. apply not_single_field in Hl.
  assert (He : exported IsUpper decl
               = Panic (StrangeReceiver (Name (DeclName decl))))
    by (unfold exported; now rewrite Hr, Hl).
  split; [exact He|].
  split; [unfold formatFuncDecl; now rewrite Hr, Hl|].
  intros prog pre post verbose out out1 Hd Hpre.
  apply (run_aborts IsUpper prog pre post (FuncDeclD decl) verbose out out1 out1
           _ Hd Hpre).
  cbn [printDecl]. unfold bindIO, lift. now rewrite He.
Qed.

Lemma C8_two_receivers_witness :
  exported isUpperLatin1 twoReceivers = Panic (StrangeReceiver "M")
  /\ formatFuncDecl twoReceivers = Panic (StrangeReceiver "M")
  /\ printFuncsInProgram isUpperLatin1
       (mkProgram [mkPackageInfo
          [mkFile [FuncDeclD joinFunc]; mkFile [FuncDeclD twoReceivers; GenDecl]]])
       false []
     = (["Join"], Panic (StrangeReceiver "M")).
Proof.
  pose proof (C8_strange_receiver_aborts isUpperLatin1 twoReceivers
                (fields [field ["a"] (ident "T"); field ["b"] (ident "U")])
                eq_refl) as H.
  destruct H as (H1 & H2 & H3); [cbn; lia|].
  split; [exact H1|]. split; [exact H2|].
  apply (H3 _ [FuncDeclD joinFunc] [GenDecl] false [] ["Join"%string]);
    reflexivity.
Defined.

(** ** What a run prints *)

Section Output.

Variable IsUpper : rune -> bool.

(** One declaration that prints cleanly adds its line when it is an
    exported function declaration, and nothing otherwise. *)
Lemma printDecl_clean (xdecl : Decl) (verbose : bool) (out : Stdout) :
  forallb (printsCleanly IsUpper verbose) (funcDecls [xdecl]) = true ->
  printDecl IsUpper xdecl verbose out
  = ((out ++ map (entry verbose)
               (filter (isExported IsUpper) (funcDecls [xdecl])))%list,
     Ok tt).
Proof.
  destruct xdecl as [decl| |]; cbn [funcDecls flat_map app forallb filter map];
    try (intros _; cbn [printDecl ret]; now rewrite app_nil_r).
  unfold printsCleanly, isExported. cbn [printDecl].
  unfold bindIO, lift, Println, ret.
  destruct (exported IsUpper decl) as [[|]|p]; cbn [andb map];
    try discriminate; try (intros _; now rewrite app_nil_r).
  unfold entry. destruct verbose; [|reflexivity].
  destruct (formatFuncDecl decl); [reflexivity | discriminate].
Qed.

Lemma printDecl_returns (xdecl : Decl) (verbose : bool) (out out1 : Stdout)
  (u : unit) :
  printDecl IsUpper xdecl verbose out = (out1, Ok u) ->
  forallb (printsCleanly IsUpper verbose) (funcDecls [xdecl]) = true.
Proof.
  destruct xdecl as [decl| |]; cbn [funcDecls flat_map app forallb];
    try reflexivity.
  unfold printsCleanly. cbn [printDecl]. unfold bindIO, lift, Println, ret.
  destruct (exported IsUpper decl) as [[|]|p];
    try reflexivity; try discriminate.
  destruct verbose; [|reflexivity].
  destruct (formatFuncDecl decl); [reflexivity | discriminate].
Qed.

Lemma funcDecls_cons (xdecl : Decl) (rest : list Decl) :
  funcDecls (xdecl :: rest) = (funcDecls [xdecl] ++ funcDecls rest)%list.
Proof.
  unfold funcDecls. cbn [flat_map]. now rewrite app_nil_r.
Qed.

Lemma printDecls_clean (decls : list Decl) (verbose : bool) :
  forall out : Stdout,
    forallb (printsCleanly IsUpper verbose) (funcDecls decls) = true ->
    printDecls IsUpper decls verbose out
    = ((out ++ map (entry verbose)
                 (filter (isExported IsUpper) (funcDecls decls)))%list,
       Ok tt).
Proof.
  induction decls as [|xdecl rest IH]; intros out H.
  - cbn. now rewrite app_nil_r.
  - rewrite funcDecls_cons in *. rewrite forallb_app in H.
    apply andb_true_iff in H as [Hx Hrest].
    cbn [printDecls]. unfold bindIO.
    rewrite (printDecl_clean xdecl verbose out Hx), (IH _ Hrest).
    now rewrite filter_app, map_app, app_assoc.
Qed.

Lemma printDecls_returns (decls : list Decl) (verbose : bool) :
  forall (out out1 : Stdout) (u : unit),
    printDecls IsUpper decls verbose out = (out1, Ok u) ->
    forallb (printsCleanly IsUpper verbose) (funcDecls decls) = true.
Proof.
  induction decls as [|xdecl rest IH]; intros out out1 u H; [reflexivity|].
  rewrite funcDecls_cons, forallb_app. cbn [printDecls] in H.
  unfold bindIO in H.
  destruct (printDecl IsUpper xdecl verbose out) as [out2 [[]|p]] eqn:E;
    [|discriminate].
  rewrite (printDecl_returns _ _ _ _ _ E), (IH _ _ _ H). reflexivity.
Qed.

End Output.

(** C1, on the code.  A declaration whose one receiver field has no name
    renders as the empty string; [printFuncsInFile] prints whatever
    [formatFuncDecl] returns, so in verbose mode such a declaration,
    when exported, adds an empty line to the output. *)
Theorem C1_unnamed_receiver_renders_empty_and_prints_it
  (IsUpper : rune -> bool) (decl : FuncDecl) (recv : FieldList) (fld : Field) :
  Recv decl = Some recv -> List_ recv = [fld] -> Names fld = [] ->
  formatFuncDecl decl = Ok ""
  /\ (forall out : Stdout,
        exported IsUpper decl = Ok true ->
        printFuncsInFile IsUpper (mkFile [FuncDeclD decl]) true out
        = ((out ++ [""])%list, Ok None)).
Proof.
  intros Hr Hl Hn.
  assert (Hf : formatFuncDecl decl = Ok "").
  { unfold formatFuncDecl. rewrite Hr.
    destruct (single_field recv fld Hl) as [-> ->].
    rewrite bind_Ok, Hn. reflexivity. }
  split; [exact Hf|].
  intros out He. unfold printFuncsInFile. cbn [Decls printDecls printDecl].
  unfold bindIO, lift, Println, ret. now rewrite He, Hf.
Qed.

Lemma C1_unnamed_receiver_witness :
  formatFuncDecl unnamedReceiverMethod = Ok ""
  /\ printFuncsInFile isUpperLatin1 (mkFile [FuncDeclD unnamedReceiverMethod])
       true []
     = ([""], Ok None).
Proof.
  destruct (C1_unnamed_receiver_renders_empty_and_prints_it isUpperLatin1
              unnamedReceiverMethod (fields [field [] (ident "T")])
              (field [] (ident "T")) eq_refl eq_refl eq_refl) as [H1 H2].
  split; [exact H1|].
  apply (H2 []). reflexivity.
Defined.

(** C9. When [printFuncsInFile] returns, and it does exactly when no
    declaration of the file panics, what it printed is one line for each
    exported function declaration of the file, in the order of the
    declaration list, nothing dropped, moved or merged: the name in
    non-verbose mode, the signature in verbose mode.  In non-verbose
    mode the line of a method is its bare name. *)
Theorem C9_output_is_exported_declarations_in_order
  (IsUpper : rune -> bool) (file : File) (verbose : bool) (out : Stdout) :
  (forallb (printsCleanly IsUpper verbose) (funcDecls (Decls file)) = true ->
   printFuncsInFile IsUpper file verbose out
   = ((out ++ map (entry verbose)
                (filter (isExported IsUpper) (funcDecls (Decls file))))%list,
      Ok None))
  /\ (forall (out1 : Stdout) (err : error),
        printFuncsInFile IsUpper file verbose out = (out1, Ok err) ->
        forallb (printsCleanly IsUpper verbose) (funcDecls (Decls file)) = true)
  /\ (forall (decl : FuncDecl) (out0 : Stdout),
        exported IsUpper decl = Ok true ->
        printDecl IsUpper (FuncDeclD decl) false out0
        = ((out0 ++ [Name (DeclName decl)])%list, Ok tt)).
Proof.
  split; [|split].
  - intros H. unfold printFuncsInFile, bindIO.
    now rewrite (printDecls_clean IsUpper _ _ out H).
  - intros out1 err H. unfold printFuncsInFile, bindIO in H.
    destruct (printDecls IsUpper (Decls file) verbose out) as [out2 [u|p]] eqn:E;
      [|discriminate].
    exact (printDecls_returns IsUpper _ _ _ _ _ E).
  - intros decl out0 He. cbn [printDecl]. unfold bindIO, lift, Println.
    now rewrite He.
Qed.

Lemma C9_sample_file_witness :
  printFuncsInFile isUpperLatin1 sampleFile false [] = (["Join"; "Read"; "Join"], Ok None)
  /\ printFuncsInFile isUpperLatin1 sampleFile true []
     = (["func Join(a []string, sep string) string";
         "func (r *Reader) Read(p []byte) (n int, err error)";
         "func Join(a []string, sep string) string"], Ok None)
  /\ forallb (printsCleanly isUpperLatin1 true) (funcDecls (Decls sampleFile))
     = true.
Proof.
  split; [|split].
  - apply (proj1 (C9_output_is_exported_declarations_in_order
                    isUpperLatin1 sampleFile false [])).
    reflexivity.
  - apply (proj1 (C9_output_is_exported_declarations_in_order
                    isUpperLatin1 sampleFile true [])).
    reflexivity.
  - apply (proj1 (proj2 (C9_output_is_exported_declarations_in_order
                    isUpperLatin1 sampleFile true []))
             ["func Join(a []string, sep string) string";
              "func (r *Reader) Read(p []byte) (n int, err error)";
              "func Join(a []string, sep string) string"] None).
    reflexivity.
Defined.

(** ** Build tags: splitting at commas *)

Lemma splitFrom_not_nil (s : string) (sep : ascii) :
  forall piece, splitFrom s sep piece <> [].
Proof.
  induction s as [|c rest IH]; intros piece; cbn [splitFrom]; [discriminate|].
  destruct (Ascii.eqb c sep); [discriminate | apply IH].
Qed.

Lemma splitFrom_length (s : string) (sep : ascii) :
  forall piece, length (splitFrom s sep piece) = S (Count s sep).
Proof.
  induction s as [|c rest IH]; intros piece; cbn [splitFrom Count];
    [reflexivity|].
  destruct (Ascii.eqb c sep); cbn [length]; now rewrite IH.
Qed.

Lemma splitFrom_append (a b : string) (sep : ascii) :
  forall piece,
    splitFrom (a +++ String sep b) sep piece
    = (splitFrom a sep piece ++ splitFrom b sep "")%list.
Proof.
  induction a as [|c rest IH]; intros piece; cbn [String.append splitFrom app].
  - now rewrite Ascii.eqb_refl.
  - destruct (Ascii.eqb c sep); cbn [app]; now rewrite IH.
Qed.

Lemma Join_cons (a : string) (l : list string) (sep : string) :
  l <> [] -> Join (a :: l) sep = a +++ sep +++ Join l sep.
Proof.
  destruct l; [contradiction | reflexivity].
Qed.

Lemma splitFrom_Join (s : string) (sep : ascii) :
  forall piece, Join (splitFrom s sep piece) (String sep "") = piece +++ s.
Proof.
  induction s as [|c rest IH]; intros piece; cbn [splitFrom].
  - cbn [Join]. now rewrite append_empty_r.
  - destruct (Ascii.eqb c sep) eqn:E.
    + apply Ascii.eqb_eq in E. subst c.
      rewrite Join_cons by apply splitFrom_not_nil. now rewrite IH.
    + rewrite IH, append_assoc. reflexivity.
Qed.

Lemma Count_append (a b : string) (sep : ascii) :
  Count (a +++ b) sep = (Count a sep + Count b sep)%nat.
Proof.
  induction a as [|c rest IH]; cbn [String.append Count]; [reflexivity|].
  destruct (Ascii.eqb c sep); cbn [Nat.add]; now rewrite IH.
Qed.

Lemma splitFrom_pieces (s : string) (sep : ascii) :
  forall piece,
    Count piece sep = O ->
    Forall (fun p => Count p sep = O) (splitFrom s sep piece).
Proof.
  induction s as [|c rest IH]; intros piece Hp; cbn [splitFrom].
  - now constructor.
  - destruct (Ascii.eqb c sep) eqn:E.
    + constructor; [exact Hp | now apply IH].
    + apply IH. rewrite Count_append, Hp. cbn [Count]. now rewrite E.
Qed.

Section BuildTagsFacts.

Variable TrimSpace : string -> string.

Lemma appendTrimmed_spec (split : list string) :
  forall result,
    appendTrimmed TrimSpace split result = (result ++ map TrimSpace split)%list.
Proof.
  induction split as [|s rest IH]; intros result; cbn [appendTrimmed map].
  - now rewrite app_nil_r.
  - rewrite IH, <- app_assoc. reflexivity.
Qed.

Lemma parseBuildTags_spec (tags : string) :
  parseBuildTags TrimSpace tags = map TrimSpace (Split tags ",").
Proof.
  unfold parseBuildTags. now rewrite appendTrimmed_spec.
Qed.

End BuildTagsFacts.

(** X1. [parseBuildTags] returns one tag more than its argument has
    commas: the result is never empty, and the empty string, the default
    of the [-tags] flag, gives one tag. *)
Theorem X1_parseBuildTags_length (TrimSpace : string -> string) (tags : string) :
  length (parseBuildTags TrimSpace tags) = S (Count tags ",")
  /\ parseBuildTags TrimSpace tags <> []
  /\ parseBuildTags TrimSpace "" = [TrimSpace ""].
Proof.
  assert (H : length (parseBuildTags TrimSpace tags) = S (Count tags ",")).
  { rewrite parseBuildTags_spec, length_map. apply splitFrom_length. }
  split; [exact H|]. split; [|reflexivity].
  intros E. rewrite E in H. discriminate H.
Qed.

(** X2. The tags of two lists written one after the other with a comma
    between them are the tags of the first followed by the tags of the
    second. *)
Theorem X2_parseBuildTags_comma (TrimSpace : string -> string) (a b : string) :
  parseBuildTags TrimSpace (a +++ "," +++ b)
  = (parseBuildTags TrimSpace a ++ parseBuildTags TrimSpace b)%list.
Proof.
  rewrite !parseBuildTags_spec. unfold Split.
  change ("," +++ b) with (String "," b).
  now rewrite splitFrom_append, map_app.
Qed.

(** X3. The tags are the trimmed pieces of the argument: pieces without
    a comma that, joined by commas, give the argument back. *)
Theorem X3_parseBuildTags_pieces (TrimSpace : string -> string) (tags : string) :
  exists pieces : list string,
    parseBuildTags TrimSpace tags = map TrimSpace pieces
    /\ Join pieces "," = tags
    /\ Forall (fun p => Count p "," = O) pieces.
Proof.
  exists (Split tags ","). split; [apply parseBuildTags_spec|].
  split.
  - unfold Split. now rewrite splitFrom_Join.
  - apply splitFrom_pieces. reflexivity.
Qed.

(** ** The classifier at its edges *)

Lemma firstRune_None (s : string) : firstRune s = None <-> s = "".
Proof.
  unfold firstRune. destruct s as [|c rest]; [easy|].
  cbn [stringtoslicerune]. destruct (nextRune (String c rest)). easy.
Qed.

Lemma stripStar_empty (s : string) :
  stripStar s = "" <-> s = "" \/ s = "*".
Proof.
  unfold stripStar. destruct (HasPrefix s "*") eqn:E.
  - destruct (HasPrefix_star s E) as [rest ->]. cbn [skip]. split.
    + intros ->. now right.
    + intros [H|H]; [discriminate H | now inversion H].
  - split; [now left|].
    intros [H|H]; [exact H | subst s; discriminate E].
Qed.

Lemma emptyOrStar_spec (s : string) :
  emptyOrStar s = true <-> s = "" \/ s = "*".
Proof.
  unfold emptyOrStar. rewrite orb_true_iff, !String.eqb_eq. reflexivity.
Qed.

Lemma isUpper0_total (IsUpper : rune -> bool) (s : string) :
  isUpper0 IsUpper s
  = if emptyOrStar s then Panic IndexOutOfRange else Ok (startsUpper IsUpper s).
Proof.
  rewrite isUpper0_spec. unfold startsUpper.
  destruct (emptyOrStar s) eqn:E.
  - apply emptyOrStar_spec, stripStar_empty, firstRune_None in E. now rewrite E.
  - destruct (firstRune (stripStar s)) eqn:F; [reflexivity|].
    apply firstRune_None, stripStar_empty, emptyOrStar_spec in F. congruence.
Qed.

(** X4. For a declaration without receiver, [exported] panics with an
    index out of range exactly when the name is empty or a lone [*];
    on every other name it returns whether the first rune, one leading
    [*] taken off, is upper case. *)
Theorem X4_exported_function_total (IsUpper : rune -> bool) (decl : FuncDecl) :
  Recv decl = None ->
  exported IsUpper decl
  = (if emptyOrStar (Name (DeclName decl)) then Panic IndexOutOfRange
     else Ok (startsUpper IsUpper (Name (DeclName decl))))
  /\ (exported IsUpper decl = Panic IndexOutOfRange
      <-> Name (DeclName decl) = "" \/ Name (DeclName decl) = "*").
Proof.
  intros Hr.
  assert (H : exported IsUpper decl
              = if emptyOrStar (Name (DeclName decl)) then Panic IndexOutOfRange
                else Ok (startsUpper IsUpper (Name (DeclName decl))))
    by (unfold exported; rewrite Hr; apply isUpper0_total).
  split; [exact H|].
  rewrite H, <- emptyOrStar_spec.
  destruct (emptyOrStar (Name (DeclName decl))); split; congruence.
Qed.

Lemma X4_empty_name_witness :
  exported isUpperLatin1 (funcDecl None "" [] None) = Panic IndexOutOfRange
  /\ exported isUpperLatin1 (funcDecl None "_x" [] None) = Ok false.
Proof.
  split.
  - apply (proj2 (X4_exported_function_total isUpperLatin1
                    (funcDecl None "" [] None) eq_refl)).
    now left.
  - apply (proj1 (X4_exported_function_total isUpperLatin1
                    (funcDecl None "_x" [] None) eq_refl)).
Defined.

(** X5. For a declaration with one receiver field whose type renders,
    [exported] looks at the receiver first: it panics when the rendered
    type is empty or a lone [*], returns [false] without looking at the
    name when the type does not start upper case, and otherwise treats
    the name as it does for a function. *)
Theorem X5_exported_method_total
  (IsUpper : rune -> bool) (decl : FuncDecl) (recv : FieldList) (fld : Field)
  (t : string) :
  Recv decl = Some recv -> List_ recv = [fld] ->
  formatType (Type_ fld) = Ok t ->
  exported IsUpper decl
  = if emptyOrStar t then Panic IndexOutOfRange
    else if startsUpper IsUpper t then
      if emptyOrStar (Name (DeclName decl)) then Panic IndexOutOfRange
      else Ok (startsUpper IsUpper (Name (DeclName decl)))
    else Ok false.
Proof.
  intros Hr Hl Ht. unfold exported. rewrite Hr.
  destruct (single_field recv fld Hl) as [-> ->].
  rewrite bind_Ok, Ht, bind_Ok, isUpper0_total.
  destruct (emptyOrStar t); [reflexivity|]. rewrite bind_Ok.
  destruct (startsUpper IsUpper t); [apply isUpper0_total | reflexivity].
Qed.

Lemma X5_lower_receiver_witness :
  exported isUpperLatin1
    (funcDecl (Some (fields [field ["m"] (StarExpr (ident "myType"))])) "" [] None)
  = Ok false.
Proof.
  apply (X5_exported_method_total isUpperLatin1
           (funcDecl (Some (fields [field ["m"] (StarExpr (ident "myType"))]))
                     "" [] None)
           (fields [field ["m"] (StarExpr (ident "myType"))])
           (field ["m"] (StarExpr (ident "myType"))) "*myType"
           eq_refl eq_refl eq_refl).
Defined.

(** ** Renderings of declarations *)

Lemma len_one {A : Type} (l : list A) :
  negb (len l =? 1) = false -> exists a, l = [a].
Proof.
  intros H. apply negb_false_iff, Z.eqb_eq in H. unfold len in H.
  destruct l as [|a [|b l]]; cbn [length] in H; try lia. eauto.
Qed.

(** X6. A receiver field with two names or more makes [formatFuncDecl]
    panic, while [exported] does not look at the names of the receiver:
    such a declaration, when exported, is listed by name in non-verbose
    mode and ends a verbose run. *)
Theorem X6_receiver_with_many_names
  (IsUpper : rune -> bool) (decl : FuncDecl) (recv : FieldList) (fld : Field) :
  Recv decl = Some recv -> List_ recv = [fld] ->
  (2 <= length (Names fld))%nat ->
  formatFuncDecl decl = Panic (StrangeReceiverField (Name (DeclName decl)))
  /\ (forall out : Stdout,
        exported IsUpper decl = Ok true ->
        printDecl IsUpper (FuncDeclD decl) false out
        = ((out ++ [Name (DeclName decl)])%list, Ok tt)
        /\ printDecl IsUpper (FuncDeclD decl) true out
           = (out, Panic (StrangeReceiverField (Name (DeclName decl))))).
Proof.
  intros Hr Hl Hn.
  assert (Hf : formatFuncDecl decl
               = Panic (StrangeReceiverField (Name (DeclName decl)))).
  { unfold formatFuncDecl. rewrite Hr.
    destruct (single_field recv fld Hl) as [-> ->]. rewrite bind_Ok.
    replace (len (Names fld) =? 0) with false
      by (symmetry; apply Z.eqb_neq; unfold len; lia).
    replace (len (Names fld) =? 1) with false
      by (symmetry; apply Z.eqb_neq; unfold len; lia).
    reflexivity. }
  split; [exact Hf|].
  intros out He. cbn [printDecl]. unfold bindIO, lift, Println.
  now rewrite He, Hf.
Qed.

Lemma X6_two_names_witness :
  formatFuncDecl
    (funcDecl (Some (fields [field ["a"; "b"] (ident "T")])) "M" [] None)
  = Panic (StrangeReceiverField "M").
Proof.
  apply (X6_receiver_with_many_names isUpperLatin1
           (funcDecl (Some (fields [field ["a"; "b"] (ident "T")])) "M" [] None)
           (fields [field ["a"; "b"] (ident "T")])
           (field ["a"; "b"] (ident "T")) eq_refl eq_refl).
  cbn. lia.
Defined.

Lemma formatFuncDecl_shape (decl : FuncDecl) (s : string) :
  formatFuncDecl decl = Ok s ->
  if hasUnnamedReceiver decl then s = "" else exists rest, s = "func " +++ rest.
Proof.
  unfold formatFuncDecl, hasUnnamedReceiver.
  destruct (Recv decl) as [recv|].
  - destruct (negb (len (List_ recv) =? 1)) eqn:E; [discriminate|].
    destruct (len_one _ E) as [fld ->]. cbn [index nth_error].
    rewrite bind_Ok.
    destruct (len (Names fld) =? 0); [now intros [= <-]|].
    destruct (negb (len (Names fld) =? 1)); [discriminate|].
    destruct (index (Names fld) 0) as [name0|]; [|discriminate].
    rewrite bind_Ok.
    destruct (formatType (Type_ fld)) as [t|]; [|discriminate].
    rewrite bind_Ok.
    destruct (formatFuncParams (Params (DeclType decl))) as [p|];
      [|discriminate].
    rewrite bind_Ok.
    destruct (formatFuncResults (Results (DeclType decl))) as [r|];
      [|discriminate].
    rewrite bind_Ok. intros [= <-]. rewrite !append_assoc.
    eexists. reflexivity.
  - destruct (formatFuncParams (Params (DeclType decl))) as [p|];
      [|discriminate].
    rewrite bind_Ok.
    destruct (formatFuncResults (Results (DeclType decl))) as [r|];
      [|discriminate].
    rewrite bind_Ok. intros [= <-]. rewrite !append_assoc.
    eexists. reflexivity.
Qed.

(** X7. Whatever [formatFuncDecl] returns is the empty string when the
    receiver is one unnamed field, and starts with [func ] in every
    other case: the empty rendering has no other origin. *)
Theorem X7_rendering_is_empty_or_func (decl : FuncDecl) (s : string) :
  formatFuncDecl decl = Ok s ->
  if hasUnnamedReceiver decl then s = "" else exists rest, s = "func " +++ rest.
Proof.
  apply formatFuncDecl_shape.
Qed.

Lemma X7_rendering_witness :
  (exists rest, "func (r *Reader) Read(p []byte) (n int, err error)"
                = "func " +++ rest).
Proof.
  apply (X7_rendering_is_empty_or_func readMethod). reflexivity.
Defined.

Lemma formatType_returns_iff (t : Expr) :
  (exists s, formatType t = Ok s) <-> hasUnsupported t = false.
Proof.
  pose proof (formatType_outcome t) as H. unfold formatTypeOutcome in H.
  destruct (hasUnsupported t); split; try easy.
  intros [s Hs]. destruct H as (p & Hp & _). congruence.
Qed.

(** X8. [formatType] returns a string exactly on the type expressions
    that hold neither a channel type nor a node of an unsupported kind,
    at any depth [formatType] descends to; the same goes for
    [formatFields] and the types of the fields. *)
Theorem X8_formatType_returns_iff_supported :
  (forall t : Expr,
     (exists s, formatType t = Ok s) <-> hasUnsupported t = false)
  /\ (forall fl : FieldList,
        (exists s, formatFields fl = Ok s) <-> fieldsHaveUnsupported fl = false).
Proof.
  split; [apply formatType_returns_iff|].
  intros fl.
  assert (H : formatFieldsOutcome fl).
  { apply formatFields_outcome, Forall_forall.
    intros f _. apply formatType_outcome. }
  unfold formatFieldsOutcome in H.
  destruct (fieldsHaveUnsupported fl); split; try easy.
  intros [s Hs]. destruct H as (p & Hp & _). congruence.
Qed.

(** X9. A declaration without receiver renders as its function type
    does, with the name put after [func]; so it renders exactly when its
    parameters and results hold no channel type and no unsupported node. *)
Theorem X9_function_renders_as_its_type (decl : FuncDecl) :
  Recv decl = None ->
  formatFuncDecl decl
  = (t <- formatType (FuncTypeExpr (DeclType decl)) ;;
     Ok ("func " +++ Name (DeclName decl) +++ skip 4 t))
  /\ ((exists s, formatFuncDecl decl = Ok s)
      <-> hasUnsupported (FuncTypeExpr (DeclType decl)) = false).
Proof.
  intros Hr.
  assert (H : formatFuncDecl decl
              = (t <- formatType (FuncTypeExpr (DeclType decl)) ;;
                 Ok ("func " +++ Name (DeclName decl) +++ skip 4 t))).
  { unfold formatFuncDecl. rewrite Hr. cbn [formatType].
    change (formatFuncParamsWith formatType) with formatFuncParams.
    change (formatFuncResultsWith formatType) with formatFuncResults.
    destruct (formatFuncParams (Params (DeclType decl))) as [p|];
      [|reflexivity].
    rewrite !bind_Ok.
    destruct (formatFuncResults (Results (DeclType decl))) as [r|];
      [|reflexivity].
    rewrite !bind_Ok. cbn [String.append skip].
    repeat (rewrite append_assoc; cbn [String.append]). reflexivity. }
  split; [exact H|].
  rewrite <- formatType_returns_iff, H.
  destruct (formatType (FuncTypeExpr (DeclType decl))) as [t|p]; cbn [bind].
  - split; eauto.
  - split; intros [s Hs]; discriminate Hs.
Qed.

Lemma X9_join_witness :
  formatFuncDecl joinFunc
  = (t <- formatType (FuncTypeExpr (DeclType joinFunc)) ;;
     Ok ("func " +++ Name (DeclName joinFunc) +++ skip 4 t)).
Proof.
  apply (proj1 (X9_function_renders_as_its_type joinFunc eq_refl)).
Defined.

Lemma mapM_app {A B : Type} (f : A -> result B) (l1 l2 : list A) :
  mapM f (l1 ++ l2)
  = (b1 <- mapM f l1 ;; b2 <- mapM f l2 ;; Ok (b1 ++ b2)%list).
Proof.
  induction l1 as [|a rest IH]; cbn [app mapM].
  - rewrite bind_Ok. destruct (mapM f l2); reflexivity.
  - destruct (f a) as [b|p]; [|reflexivity]. rewrite !bind_Ok, IH.
    destruct (mapM f rest) as [bs|p]; [|reflexivity]. rewrite !bind_Ok.
    destruct (mapM f l2); reflexivity.
Qed.

Lemma Join_app (l1 l2 : list string) (sep : string) :
  l1 <> [] -> l2 <> [] ->
  Join (l1 ++ l2) sep = Join l1 sep +++ sep +++ Join l2 sep.
Proof.
  intros H1 H2. induction l1 as [|a rest IH]; [contradiction|].
  destruct rest as [|b rest'].
  - cbn [app]. now rewrite Join_cons.
  - change ((a :: b :: rest') ++ l2)%list with (a :: ((b :: rest') ++ l2))%list.
    rewrite Join_cons by discriminate. rewrite IH by discriminate.
    rewrite (Join_cons a (b :: rest')) by discriminate.
    now rewrite !append_assoc.
Qed.

(** X10. Two field lists that are not empty, put one after the other,
    render as the rendering of the first, [", "], and the rendering of
    the second; the panic of the first wins over that of the second. *)
Theorem X10_formatFields_app (l1 l2 : list Field) :
  l1 <> [] -> l2 <> [] ->
  formatFields (mkFieldList (l1 ++ l2))
  = (s1 <- formatFields (mkFieldList l1) ;;
     s2 <- formatFields (mkFieldList l2) ;;
     Ok (s1 +++ ", " +++ s2)).
Proof.
  intros H1 H2. rewrite !formatFields_spec. cbn [List_]. rewrite mapM_app.
  destruct (mapM renderField l1) as [ss1|p] eqn:E1; [|reflexivity].
  rewrite !bind_Ok.
  destruct (mapM renderField l2) as [ss2|p] eqn:E2; [|reflexivity].
  rewrite !bind_Ok. f_equal.
  apply mapM_length in E1, E2.
  apply Join_app.
  - intros ->. destruct l1; [contradiction | discriminate].
  - intros ->. destruct l2; [contradiction | discriminate].
Qed.

Lemma X10_two_lists_witness :
  formatFields (mkFieldList ([field ["a"; "b"] (ident "string")]
                             ++ [field [] (ident "int")]))
  = Ok "a, b string, int".
Proof.
  rewrite (X10_formatFields_app [field ["a"; "b"] (ident "string")]
             [field [] (ident "int")]) by discriminate.
  reflexivity.
Defined.

(** ** The run as a whole *)

Section RunFacts.

Variable IsUpper : rune -> bool.

(** What one declaration prints does not depend on what was printed
    before it. *)
Lemma printDecl_frame (xdecl : Decl) (verbose : bool) (out : Stdout) :
  printDecl IsUpper xdecl verbose out
  = ((out ++ fst (printDecl IsUpper xdecl verbose []))%list,
     snd (printDecl IsUpper xdecl verbose [])).
Proof.
  destruct xdecl as [decl| |]; cbn [printDecl ret fst snd];
    try now rewrite app_nil_r.
  unfold bindIO, lift, Println, ret.
  destruct (exported IsUpper decl) as [[|]|p]; cbn [fst snd];
    try now rewrite app_nil_r.
  destruct verbose; [|reflexivity].
  destruct (formatFuncDecl decl); cbn [fst snd]; [reflexivity|].
  now rewrite app_nil_r.
Qed.

Lemma printDecls_frame (decls : list Decl) (verbose : bool) :
  forall out : Stdout,
    printDecls IsUpper decls verbose out
    = ((out ++ fst (printDecls IsUpper decls verbose []))%list,
       snd (printDecls IsUpper decls verbose [])).
Proof.
  induction decls as [|xdecl rest IH]; intros out.
  - cbn. now rewrite app_nil_r.
  - cbn [printDecls]. unfold bindIO.
    rewrite (printDecl_frame xdecl verbose out).
    destruct (printDecl IsUpper xdecl verbose []) as [o1 [[]|p]];
      cbn [fst snd app]; [|reflexivity].
    rewrite (IH (out ++ o1)%list), (IH o1). cbn [fst snd].
    now rewrite app_assoc.
Qed.

(** The lines a run adds all have a property that the line of every
    exported declaration has, also when the run ends in a panic. *)
Lemma printDecls_lines (Q : string -> bool) (decls : list Decl) (verbose : bool) :
  (forall decl : FuncDecl,
     exported IsUpper decl = Ok true ->
     if verbose
     then forall s, formatFuncDecl decl = Ok s -> Q s = true
     else Q (Name (DeclName decl)) = true) ->
  forallb Q (fst (printDecls IsUpper decls verbose [])) = true.
Proof.
  intros HQ. induction decls as [|xdecl rest IH]; [reflexivity|].
  cbn [printDecls]. unfold bindIO.
  assert (Hx : forallb Q (fst (printDecl IsUpper xdecl verbose [])) = true).
  { destruct xdecl as [decl| |]; try reflexivity.
    cbn [printDecl]. unfold bindIO, lift, Println, ret.
    destruct (exported IsUpper decl) as [[|]|p] eqn:E; try reflexivity.
    specialize (HQ decl E). destruct verbose.
    - destruct (formatFuncDecl decl) as [s|p]; [|reflexivity].
      cbn. now rewrite (HQ s eq_refl).
    - cbn. now rewrite HQ. }
  destruct (printDecl IsUpper xdecl verbose []) as [o1 [[]|p]];
    cbn [fst] in *; [|exact Hx].
  rewrite printDecls_frame. cbn [fst]. rewrite forallb_app, Hx. exact IH.
Qed.

Lemma exported_true_startsUpper (decl : FuncDecl) :
  exported IsUpper decl = Ok true ->
  startsUpper IsUpper (Name (DeclName decl)) = true.
Proof.
  unfold exported. destruct (Recv decl) as [recv|].
  - destruct (negb (len (List_ recv) =? 1)); [discriminate|].
    destruct (index (List_ recv) 0) as [fld|]; [|discriminate].
    rewrite bind_Ok.
    destruct (formatType (Type_ fld)) as [t|]; [|discriminate].
    rewrite bind_Ok.
    destruct (isUpper0 IsUpper t) as [[|]|]; try discriminate.
    rewrite bind_Ok, isUpper0_total.
    destruct (emptyOrStar (Name (DeclName decl))); [discriminate|].
    now intros [= ->].
  - rewrite isUpper0_total.
    destruct (emptyOrStar (Name (DeclName decl))); [discriminate|].
    now intros [= ->].
Qed.

Lemma retype_printDecl (f : FuncDecl -> FuncType) (xdecl : Decl) (out : Stdout) :
  printDecl IsUpper (retype f xdecl) false out
  = printDecl IsUpper xdecl false out.
Proof.
  destruct xdecl; reflexivity.
Qed.

End RunFacts.

Lemma printFuncsInProgram_output (IsUpper : rune -> bool) (prog : Program)
  (verbose : bool) (out : Stdout) :
  fst (printFuncsInProgram IsUpper prog verbose out)
  = fst (printDecls IsUpper (allDecls prog) verbose out).
Proof.
  rewrite printFuncsInProgram_flat. unfold bindIO.
  destruct (printDecls IsUpper (allDecls prog) verbose out) as [o [[]|p]];
    reflexivity.
Qed.

Lemma formatFuncDecl_emptyOrFunc (decl : FuncDecl) (s : string) :
  formatFuncDecl decl = Ok s -> emptyOrFunc s = true.
Proof.
  intros H. apply formatFuncDecl_shape in H.
  destruct (hasUnnamedReceiver decl); [now subst s|].
  destruct H as [rest ->]. destruct rest; reflexivity.
Qed.

(** X11. A run only adds lines: what it prints and how it ends do not
    depend on what was on the output before, which stays there as it
    was, also when the run ends in a panic. *)
Theorem X11_run_only_appends
  (IsUpper : rune -> bool) (prog : Program) (verbose : bool) (out : Stdout) :
  printFuncsInProgram IsUpper prog verbose out
  = ((out ++ fst (printFuncsInProgram IsUpper prog verbose []))%list,
     snd (printFuncsInProgram IsUpper prog verbose [])).
Proof.
  rewrite !printFuncsInProgram_flat. unfold bindIO.
  rewrite (printDecls_frame IsUpper (allDecls prog) verbose out).
  destruct (printDecls IsUpper (allDecls prog) verbose []) as [o [[]|p]];
    reflexivity.
Qed.

(** X12. [printFuncsInProgram] never returns an error: a run either
    returns [nil], after one pass over the declarations of all files of
    all packages in order, or ends in a panic. *)
Theorem X12_run_returns_no_error
  (IsUpper : rune -> bool) (prog : Program) (verbose : bool) (out : Stdout) :
  (snd (printFuncsInProgram IsUpper prog verbose out) = Ok None
   \/ exists p, snd (printFuncsInProgram IsUpper prog verbose out) = Panic p)
  /\ fst (printFuncsInProgram IsUpper prog verbose out)
     = fst (printDecls IsUpper (allDecls prog) verbose out)
  /\ (snd (printFuncsInProgram IsUpper prog verbose out) = Ok None
      <-> snd (printDecls IsUpper (allDecls prog) verbose out) = Ok tt).
Proof.
  split; [|split; [apply printFuncsInProgram_output|]];
    rewrite printFuncsInProgram_flat; unfold bindIO;
    destruct (printDecls IsUpper (allDecls prog) verbose out) as [o [[]|p]];
    cbn [snd ret]; eauto; split; congruence.
Qed.

(** X13. When no declaration of the program panics, the run prints one
    line for each exported function declaration, through all files of
    all packages in order, and returns [nil]. *)
Theorem X13_program_output
  (IsUpper : rune -> bool) (prog : Program) (verbose : bool) (out : Stdout) :
  forallb (printsCleanly IsUpper verbose) (funcDecls (allDecls prog)) = true ->
  printFuncsInProgram IsUpper prog verbose out
  = ((out ++ map (entry verbose)
               (filter (isExported IsUpper) (funcDecls (allDecls prog))))%list,
     Ok None).
Proof.
  intros H. rewrite printFuncsInProgram_flat. unfold bindIO.
  now rewrite (printDecls_clean IsUpper _ _ out H).
Qed.

Lemma X13_two_files_witness :
  printFuncsInProgram isUpperLatin1
    (mkProgram [mkPackageInfo [mkFile [FuncDeclD splitFunc; FuncDeclD readMethod]];
                mkPackageInfo [mkFile []; sampleFile]])
    false []
  = (["Read"; "Join"; "Read"; "Join"], Ok None).
Proof.
  apply (X13_program_output isUpperLatin1
           (mkProgram [mkPackageInfo [mkFile [FuncDeclD splitFunc;
                                              FuncDeclD readMethod]];
                       mkPackageInfo [mkFile []; sampleFile]])
           false []).
  reflexivity.
Defined.

(** X14. In non-verbose mode every line a run prints is a name whose
    first rune is upper case, also when the run ends in a panic. *)
Theorem X14_listed_names_start_upper
  (IsUpper : rune -> bool) (prog : Program) :
  forallb (startsUpper IsUpper) (fst (printFuncsInProgram IsUpper prog false []))
  = true.
Proof.
  rewrite printFuncsInProgram_output.
  apply (printDecls_lines IsUpper (startsUpper IsUpper) (allDecls prog) false).
  intros decl He. now apply exported_true_startsUpper.
Qed.

(** X15. In non-verbose mode a run does not look at parameters and
    results: replacing the function type of every declaration by any
    other leaves what the file prints and how it ends as they were. *)
Theorem X15_names_ignore_signatures
  (IsUpper : rune -> bool) (f : FuncDecl -> FuncType) (file : File)
  (out : Stdout) :
  printFuncsInFile IsUpper (mkFile (map (retype f) (Decls file))) false out
  = printFuncsInFile IsUpper file false out.
Proof.
  unfold printFuncsInFile, bindIO. cbn [Decls].
  assert (H : forall decls o,
             printDecls IsUpper (map (retype f) decls) false o
             = printDecls IsUpper decls false o).
  { induction decls as [|xdecl rest IH]; intros o; [reflexivity|].
    cbn [map printDecls]. unfold bindIO. rewrite retype_printDecl.
    destruct (printDecl IsUpper xdecl false o) as [o1 [[]|p]];
      [apply IH | reflexivity]. }
  now rewrite H.
Qed.

(** X16. In verbose mode every line a run prints is empty or starts
    with [func ], also when the run ends in a panic. *)
Theorem X16_verbose_lines_are_empty_or_func
  (IsUpper : rune -> bool) (prog : Program) :
  forallb emptyOrFunc (fst (printFuncsInProgram IsUpper prog true [])) = true.
Proof.
  rewrite printFuncsInProgram_output.
  apply (printDecls_lines IsUpper emptyOrFunc (allDecls prog) true).
  intros decl _ s. apply formatFuncDecl_emptyOrFunc.
Qed.



